(** * EdgeNets segmentation utilities: a shallow embedding

  The development follows [jn_utils_segmentation.py]: the Cityscapes
  relabelling of a predicted label map, the nearest-neighbour resize of
  the label map, the output file name, the dataset enumeration and the
  freezing of the base network's parameters. *)

From Stdlib Require Import ZArith List Lia Bool Ascii String DecimalString.
From stdpp Require Import base option list gmap strings.

Local Open Scope Z_scope.

(** ** Label arrays on the heap *)

(** A label map is the [uint8] NumPy array that [evaluate] obtains from
  [img_out.max(0)[1].byte()]: rows of cells.  Arrays are objects: a
  variable holds a reference, and the heap maps references to contents. *)
Module Relabel.

Abbreviation array2 := (list (list Z)).
Abbreviation loc := positive.
Abbreviation heap := (gmap loc array2).

Definition shape (a : array2) : list nat := map (@length Z) a.

(** [img == a]: the boolean mask of the cells equal to [a]. *)
Definition eq_mask (a : Z) (img : array2) : list (list bool) :=
  map (map (fun v => v =? a)) img.

(** One row of [img[mask] = b]. *)
Fixpoint assign_row (mask : list bool) (b : Z) (row : list Z) : list Z :=
  match mask, row with
  | m :: mask', v :: row' => (if m then b else v) :: assign_row mask' b row'
  | _, _ => row
  end.

(** [img[mask] = b] on the contents of the array. *)
Fixpoint assign_where (mask : list (list bool)) (b : Z) (img : array2) : array2 :=
  match mask, img with
  | m :: mask', r :: img' => assign_row m b r :: assign_where mask' b img'
  | _, _ => img
  end.

(** Statements run on the heap and may yield a value. *)
Definition St (A : Type) : Type := heap -> A * heap.
#[export] Instance St_ret : MRet St := fun A a h => (a, h).
#[export] Instance St_bind : MBind St :=
  fun A B k m h => let '(a, h') := m h in k a h'.

(** The statement [img[img == a] = b]: the mask is computed from the
    current contents of the object and the object itself is updated.  The
    stored constants all fit in a byte, so no store wraps. *)
Definition setitem_eq (img : loc) (a b : Z) : St unit :=
  fun h => (tt, alter (fun arr => assign_where (eq_mask a arr) b arr) img h).

Definition relabel (img : loc) : St loc :=
  setitem_eq img 19 255 ;;
  setitem_eq img 18 33 ;;
  setitem_eq img 17 32 ;;
  setitem_eq img 16 31 ;;
  setitem_eq img 15 28 ;;
  setitem_eq img 14 27 ;;
  setitem_eq img 13 26 ;;
  setitem_eq img 12 25 ;;
  setitem_eq img 11 24 ;;
  setitem_eq img 10 23 ;;
  setitem_eq img 9 22 ;;
  setitem_eq img 8 21 ;;
  setitem_eq img 7 20 ;;
  setitem_eq img 6 19 ;;
  setitem_eq img 5 17 ;;
  setitem_eq img 4 13 ;;
  setitem_eq img 3 12 ;;
  setitem_eq img 2 11 ;;
  setitem_eq img 1 8 ;;
  setitem_eq img 0 7 ;;
  setitem_eq img 255 0 ;;
  mret img.

(** What one masked assignment does to a single cell. *)
Definition subst1 (a b v : Z) : Z := if v =? a then b else v.

(** The value a cell ends with, as the twenty-one assignments compose. *)
Definition city_id (v : Z) : Z :=
  match v with
  | 0 => 7 | 1 => 8 | 2 => 11 | 3 => 12 | 4 => 13
  | 5 => 17 | 6 => 19 | 7 => 20 | 8 => 21 | 9 => 22
  | 10 => 23 | 11 => 24 | 12 => 25 | 13 => 26 | 14 => 27
  | 15 => 28 | 16 => 31 | 17 => 32 | 18 => 33
  | 19 => 0
  | 255 => 0
  | _ => v
  end.

(** The table as the specification documents it, where 19 ends as 255. *)
Definition documented_table (v : Z) : Z :=
  match v with
  | 0 => 7 | 1 => 8 | 2 => 11 | 3 => 12 | 4 => 13
  | 5 => 17 | 6 => 19 | 7 => 20 | 8 => 21 | 9 => 22
  | 10 => 23 | 11 => 24 | 12 => 25 | 13 => 26 | 14 => 27
  | 15 => 28 | 16 => 31 | 17 => 32 | 18 => 33
  | 19 => 255
  | 255 => 0
  | _ => v
  end.

(** The substitutions [(a, b)] of [relabel], in program order, and their
    effect when each one reads the array the previous one left. *)
Definition substitutions : list (Z * Z) :=
  [ (19, 255); (18, 33); (17, 32); (16, 31); (15, 28); (14, 27); (13, 26);
    (12, 25); (11, 24); (10, 23); (9, 22); (8, 21); (7, 20); (6, 19);
    (5, 17); (4, 13); (3, 12); (2, 11); (1, 8); (0, 7); (255, 0) ].

Definition array_steps (l : list (Z * Z)) (arr : array2) : array2 :=
  fold_left (fun acc '(a, b) => assign_where (eq_mask a acc) b acc) l arr.

Definition in_place_steps (arr : array2) : array2 :=
  array_steps substitutions arr.

(** The same substitutions followed on the value of one cell. *)
Definition cell_steps (l : list (Z * Z)) (v : Z) : Z :=
  fold_left (fun x '(a, b) => subst1 a b x) l v.

Definition chain (v : Z) : Z := cell_steps substitutions v.

(** A 3 x 7 array holding each of 0..19 and 255 once. *)
Definition every_value : array2 :=
  [ [0; 1; 2; 3; 4; 5; 6];
    [7; 8; 9; 10; 11; 12; 13];
    [14; 15; 16; 17; 18; 19; 255] ].

End Relabel.

(** ** The label map as an image, and its resize *)

(** [Image.fromarray] wraps the two-dimensional byte array as a
    single-band image; [resize(size, Image.NEAREST)] is Pillow's affine
    scaling without a filter.  Pillow maps the centre of output pixel [x]
    to [(x + 1/2) * xsize_in / xsize_out] and truncates; it computes this in
    double precision, the embedding takes the quotient exactly. *)
Module Resize.










End Resize.

(** ** Python strings *)

(** The [str] methods the script uses, on byte strings. *)
Module PyStr.
Local Open Scope string_scope.

(** [s.split(sep)] for a one-character separator: the fields between the
    occurrences of [sep]; the list is never empty. *)
Fixpoint split (sep : ascii) (s : string) : list string :=
  match s with
  | EmptyString => [EmptyString]
  | String c s' =>
      if Ascii.eqb c sep then EmptyString :: split sep s'
      else match split sep s' with
           | field :: fields => String c field :: fields
           | [] => [String c EmptyString]
           end
  end.

(** [c in s]. *)
Fixpoint has_char (c : ascii) (s : string) : bool :=
  match s with
  | EmptyString => false
  | String c' s' => Ascii.eqb c' c || has_char c s'
  end.

(** [l[-1]] on a list of fields. *)
Definition last_field (l : list string) : string := List.last l EmptyString.

(** [s.replace(old, new)] for a non-empty [old]: scan from the left; at an
    occurrence of [old] emit [new] and skip the occurrence ([skip] counts the
    characters of it still to pass), otherwise keep the character. *)
Fixpoint replace_from (old new : string) (skip : nat) (s : string) : string :=
  match s with
  | EmptyString => EmptyString
  | String c s' =>
      match skip with
      | S k => replace_from old new k s'
      | O => if String.prefix old s
             then new +:+ replace_from old new (String.length old - 1) s'
             else String c (replace_from old new 0 s')
      end
  end.

(** With an empty [old], [new] goes before every character and at the end. *)
Fixpoint intersperse (new s : string) : string :=
  match s with
  | EmptyString => new
  | String c s' => new +:+ String c (intersperse new s')
  end.

Definition replace (old new s : string) : string :=
  match old with
  | EmptyString => intersperse new s
  | _ => replace_from old new 0 s
  end.

(** The characters [str.split()] treats as blank, among the ASCII ones. *)
Definition isspace (c : ascii) : bool :=
  let n := nat_of_ascii c in
  ((9 <=? n) && (n <=? 13) || (28 <=? n) && (n <=? 32))%nat.

(** The first field of [line.split()], if the line has one: leading
    blanks are dropped and the field runs to the next blank. *)
Fixpoint take_field (s : string) : string :=
  match s with
  | EmptyString => EmptyString
  | String c s' => if isspace c then EmptyString else String c (take_field s')
  end.

Fixpoint first_field (line : string) : option string :=
  match line with
  | EmptyString => None
  | String c s' => if isspace c then first_field s' else Some (take_field line)
  end.

(** [os.path.join(a, *p)] of [posixpath]. *)
Definition join2 (path b : string) : string :=
  if String.prefix "/" b then b
  else if String.eqb path "" || String.eqb (String.substring (String.length path - 1) 1 path) "/"
       then path +:+ b
       else path +:+ "/" +:+ b.

Definition join (a : string) (p : list string) : string := fold_left join2 p a.

(** [str(n)] for a length. *)
Definition of_nat (n : nat) : string := NilZero.string_of_uint (Nat.to_uint n).

End PyStr.

(** ** Output file name *)
Module Evaluate.
Local Open Scope string_scope.

(** Lines 92 to 94 of [evaluate]: the path the mask is saved under. *)
Definition output_name (savedir imgName : string) : string :=
  let name := PyStr.last_field (PyStr.split "/" imgName) in
  let img_extn := PyStr.last_field (PyStr.split "." imgName) in
  savedir +:+ "/" +:+ PyStr.replace img_extn "png" name.

End Evaluate.

(** ** Dataset enumeration *)
Module Dataset.
Local Open Scope string_scope.

(** The fields of [args] that [load_dataset] reads. *)
Record args : Type := Args { dataset : string; data_path : string; split : string }.

(** The file system, as far as [load_dataset] asks it: [glob.glob], which
    lists the matches of a pattern in the order the directories enumerate
    their entries; [os.path.isfile]; and the lines of a text file, or
    [None] when it cannot be opened. *)
Record filesystem : Type := Filesystem {
  glob : string -> list string;
  isfile : string -> bool;
  readlines : string -> option (list string)
}.

Inductive exn : Type :=
| SystemExit
| UnboundLocalError (name : string)
| IndexError
| FileNotFoundError (path : string).

Inductive outcome (A : Type) : Type :=
| Returned (a : A)
| Raised (e : exn).
Arguments Returned {A} a.
Arguments Raised {A} e.

(** A run threads the lines printed so far and ends by returning a value
    or raising. *)
Definition Run (A : Type) : Type := list string -> outcome A * list string.

#[export] Instance Run_ret : MRet Run := fun A a out => (Returned a, out).
#[export] Instance Run_bind : MBind Run :=
  fun A B k m out =>
    match m out with
    | (Returned a, out') => k a out'
    | (Raised e, out') => (Raised e, out')
    end.

Definition raise {A} (e : exn) : Run A := fun out => (Raised e, out).
Definition print (line : string) : Run unit := fun out => (Returned tt, (out ++ [line])%list).

(** Modelled from the spec: [print_error_message] of
    [utilities/print_utils.py], which is not among the sources.  A
    configuration error is "reported as a diagnostic and the run aborts":
    the message is printed and the process exits. *)
Definition print_error_message (message : string) : Run unit :=
  print message ;; raise SystemExit.

(** Modelled from the spec: [print_info_message] of
    [utilities/print_utils.py], which is not among the sources; it prints
    its message and the run goes on. *)
Definition print_info_message (message : string) : Run unit := print message.

(** Reading a local variable that may not have been assigned. *)
Definition local {A} (name : string) (v : option A) : Run A :=
  match v with
  | Some a => mret a
  | None => raise (UnboundLocalError name)
  end.

(** Line 101: the pattern of the directory scan. *)
Definition city_pattern (a : args) : string :=
  PyStr.join (data_path a) ["leftImg8bit"; split a; "*"; "*.png"].

(** Line 108: the manifest of the split. *)
Definition data_file (a : args) : string :=
  PyStr.join (data_path a) ["VOC2012"; "list"; split a +:+ ".txt"].

(** Line 114: where a listed image is expected. *)
Definition rgb_img_loc (a : args) (identifier : string) : string :=
  data_path a +:+ "/" +:+ "VOC2012" +:+ "/" +:+ identifier.

(** Lines 113 to 117: the loop over the lines of the manifest. *)
Fixpoint read_manifest (fs : filesystem) (a : args) (lines image_list : list string)
  : Run (list string) :=
  match lines with
  | [] => mret image_list
  | line :: lines' =>
      identifier ← match PyStr.first_field line with
                   | Some f => mret f
                   | None => raise IndexError
                   end;
      let loc := rgb_img_loc a identifier in
      (if negb (isfile fs loc)
       then print_error_message (loc +:+ " image file does not exist")
       else mret tt) ;;
      read_manifest fs a lines' (image_list ++ [loc])%list
  end.

Definition open_lines (fs : filesystem) (path : string) : Run (list string) :=
  match readlines fs path with
  | Some lines => mret lines
  | None => raise (FileNotFoundError path)
  end.

(** [load_dataset]; the pair carried out of the branches holds the locals
    [image_path] and [image_list], each assigned or not. *)
Definition load_dataset (fs : filesystem) (a : args) : Run (list string) :=
  '(image_path, image_list) ←
    (if String.eqb (dataset a) "city" then
       let image_path := city_pattern a in
       let image_list := glob fs image_path in
       mret (Some image_path, Some image_list)
     else if String.eqb (dataset a) "pascal" then
       let data_file := data_file a in
       (if negb (isfile fs data_file)
        then print_error_message (data_file +:+ " file does not exist")
        else mret tt) ;;
       lines ← open_lines fs data_file;
       image_list ← read_manifest fs a lines [];
       mret (None, Some image_list)
     else
       print_error_message (dataset a +:+ " dataset not yet supported") ;;
       mret (None, None));
  image_list ← local "image_list" image_list;
  (if (length image_list =? 0)%nat
   then image_path ← local "image_path" image_path;
        print_error_message ("No files in directory: " +:+ image_path)
   else mret tt) ;;
  let image_list := firstn 5 image_list in
  print_info_message ("# of images for testing: " +:+ PyStr.of_nat (length image_list)) ;;
  mret image_list.

(** The identifier-to-location step applied to a manifest line. *)
Definition listed (a : args) (line : string) : option string :=
  rgb_img_loc a <$> PyStr.first_field line.

(** A line the loop passes: it names an image that is on disk. *)
Definition present (fs : filesystem) (a : args) (line : string) : Prop :=
  exists f, PyStr.first_field line = Some f /\ isfile fs (rgb_img_loc a f) = true.

(** The sequence the enumeration yields before line 123 cuts it: the
    matches of the scan, or the locations of the images the manifest lists. *)
Definition enumerated (fs : filesystem) (a : args) : list string :=
  if String.eqb (dataset a) "city" then glob fs (city_pattern a)
  else if String.eqb (dataset a) "pascal" then
    omap (listed a) (default [] (readlines fs (data_file a)))
  else [].

End Dataset.

(** ** Freezing the base network *)

(** A [torch.nn.Module] is a tree: the parameters registered on the module
    itself and its named children.  A parameter is an object, named here by
    a number; the same parameter may be registered in several places.  Its
    [requires_grad] flag lives in the store. *)
Module Freeze.
Local Open Scope string_scope.

Abbreviation param := positive.

#[warnings="-register-all"]
Inductive nn_module : Type :=
| NNModule (own : list param) (children : list (string * nn_module)).

Definition own_parameters (m : nn_module) : list param :=
  match m with NNModule own _ => own end.

(** [m.named_children()]. *)
Definition named_children (m : nn_module) : list (string * nn_module) :=
  match m with NNModule _ children => children end.

(** Every registration below and at [m], the module itself first. *)
Fixpoint registered (m : nn_module) : list param :=
  match m with
  | NNModule own children =>
      (own ++ flat_map (fun nc => registered nc.2) children)%list
  end.

(** The memo of [named_parameters]: a parameter already seen is skipped. *)
Fixpoint unique (memo : gset param) (l : list param) : list param :=
  match l with
  | [] => []
  | p :: l' => if decide (p ∈ memo) then unique memo l'
               else p :: unique ({[p]} ∪ memo) l'
  end.

(** [m.parameters()]: each parameter of the subtree, once. *)
Definition parameters (m : nn_module) : list param := unique ∅ (registered m).

(** The flag of a parameter; one never assigned has PyTorch's default. *)
Definition requires_grad (s : gmap param bool) (p : param) : bool :=
  default true (s !! p).

(** [for param in ps: param.requires_grad = b]. *)
Definition set_all (b : bool) (ps : list param) (s : gmap param bool) : gmap param bool :=
  fold_left (fun s p => <[p := b]> s) ps s.

Fixpoint _freeze (model : nn_module) (freeze : bool) (s : gmap param bool)
  : gmap param bool :=
  match model with
  | NNModule _ children =>
      fold_left (fun s nc =>
                   let s := set_all (negb freeze) (parameters nc.2) s in
                   _freeze nc.2 freeze s)
                children s
  end.

(** The inner loop of [_count_freeze] over the parameters of one child. *)
Definition count_params (s : gmap param bool) (ps : list param) (counts : nat * nat)
  : nat * nat :=
  fold_left (fun '(count_requires_grad, count_not_requires_grad) p =>
               if requires_grad s p
               then (S count_requires_grad, count_not_requires_grad)
               else (count_requires_grad, S count_not_requires_grad))
            ps counts.

Fixpoint _count_freeze (model : nn_module) (s : gmap param bool) : nat * nat :=
  match model with
  | NNModule _ children =>
      fold_left (fun counts nc =>
                   let counts := count_params s (parameters nc.2) counts in
                   let _ := _count_freeze nc.2 s in
                   counts)
                children (0, 0)%nat
  end.

(** [model.name] for a registered submodule; [None] is AttributeError. *)
Definition getattr (model : nn_module) (name : string) : option nn_module :=
  snd <$> List.find (fun nc => String.eqb nc.1 name) (named_children model).

Definition report (model : nn_module) (s : gmap param bool) : string :=
  "Parameters unfrozen = " +:+ PyStr.of_nat (_count_freeze model s).1
  +:+ ", Parameters frozen = " +:+ PyStr.of_nat (_count_freeze model s).2 +:+ " ".

(** [freeze_base] and [unfreeze_base]: the new store and the line printed. *)
Definition freeze_base (model : nn_module) (s : gmap param bool)
  : option (gmap param bool * string) :=
  base_net ← getattr model "base_net";
  let s := _freeze base_net true s in
  Some (s, report model s).

Definition unfreeze_base (model : nn_module) (s : gmap param bool)
  : option (gmap param bool * string) :=
  base_net ← getattr model "base_net";
  let s := _freeze base_net false s in
  Some (s, report model s).

(** The parameters of the modules strictly below [m]. *)
Definition descendant_params (m : nn_module) : list param :=
  flat_map (fun nc => registered nc.2) (named_children m).

(** What the loops of [_count_freeze] visit: for each direct child in
    turn, the parameters of its subtree. *)
Definition visited (m : nn_module) : list param :=
  flat_map (fun nc => parameters nc.2) (named_children m).

(** Two children that register one and the same parameter. *)
Definition tied : nn_module :=
  NNModule [] [("encoder", NNModule [1%positive] []);
               ("decoder", NNModule [1%positive] [])].

End Freeze.

(** ** File systems used as examples *)
Module Fixtures.
Import Dataset.
Local Open Scope string_scope.

Definition city_args : args := Args "city" "/data" "val".
Definition pascal_args : args := Args "pascal" "/data" "val".

Definition aachen : string := "/data/leftImg8bit/val/aachen/1.png".
Definition bochum : string := "/data/leftImg8bit/val/bochum/1.png".

(** Two trees with the same two pictures; the first enumerates the
    directory [bochum] before [aachen], the second after. *)
Definition fs_bochum_first : filesystem :=
  Filesystem (fun p => if String.eqb p "/data/leftImg8bit/val/*/*.png"
                       then [bochum; aachen] else [])
             (fun p => String.eqb p aachen || String.eqb p bochum)
             (fun _ => None).

Definition fs_aachen_first : filesystem :=
  Filesystem (fun p => if String.eqb p "/data/leftImg8bit/val/*/*.png"
                       then [aachen; bochum] else [])
             (fun p => String.eqb p aachen || String.eqb p bochum)
             (fun _ => None).

(** The first tree again, its [isfile] written the other way round. *)
Definition fs_bochum_first_again : filesystem :=
  Filesystem (fun p => if String.eqb p "/data/leftImg8bit/val/*/*.png"
                       then [bochum; aachen] else [])
             (fun p => String.eqb p bochum || String.eqb p aachen)
             (fun _ => None).

(** Seven pictures under one city. *)
Definition fs_seven : filesystem :=
  Filesystem (fun p => if String.eqb p "/data/leftImg8bit/val/*/*.png"
                       then ["/data/leftImg8bit/val/ulm/1.png";
                             "/data/leftImg8bit/val/ulm/2.png";
                             "/data/leftImg8bit/val/ulm/3.png";
                             "/data/leftImg8bit/val/ulm/4.png";
                             "/data/leftImg8bit/val/ulm/5.png";
                             "/data/leftImg8bit/val/ulm/6.png";
                             "/data/leftImg8bit/val/ulm/7.png"]
                       else [])
             (fun _ => true)
             (fun _ => None).

(** A Pascal tree whose manifest [val.txt] exists and has no line. *)
Definition fs_empty_manifest : filesystem :=
  Filesystem (fun _ => [])
             (fun p => String.eqb p "/data/VOC2012/list/val.txt")
             (fun p => if String.eqb p "/data/VOC2012/list/val.txt"
                       then Some [] else None).



End Fixtures.

(** ** After the arg-max: relabel, resize *)

(** Lines 78 to 85 of [evaluate], for a label map that sits in the heap:
    the Cityscapes relabelling when the dataset asks for it, then the
    image of the array brought to the size of the picture. *)
Module Postprocess.
Import Relabel Resize.
Local Open Scope string_scope.



(** The identifiers [relabel] produces from the twenty train ids. *)
Definition city_ids : list Z :=
  [0; 7; 8; 11; 12; 13; 17; 19; 20; 21; 22; 23; 24; 25; 26; 27; 28; 31; 32; 33]%Z.

(** The train id behind a Cityscapes identifier of a class. *)
Definition train_id (v : Z) : Z :=
  match v with
  | 7 => 0 | 8 => 1 | 11 => 2 | 12 => 3 | 13 => 4
  | 17 => 5 | 19 => 6 | 20 => 7 | 21 => 8 | 22 => 9
  | 23 => 10 | 24 => 11 | 25 => 12 | 26 => 13 | 27 => 14
  | 28 => 15 | 31 => 16 | 32 => 17 | 33 => 18
  | _ => v
  end%Z.

End Postprocess.

(** ** Where the masks go *)

(** Lines 196 to 202 of [load_args]: the results directory of a dataset
    and split; [None] where the script reports an unsupported dataset. *)
Module LoadArgs.
Local Open Scope string_scope.

Definition savedir (dataset split : string) : option string :=
  if String.eqb dataset "city" then
    Some ("results" +:+ "_" +:+ dataset +:+ "_" +:+ split +:+ "/results")
  else if String.eqb dataset "pascal" then
    Some ("results" +:+ "_" +:+ dataset
          +:+ "/results/VOC2012/Segmentation/comp6_" +:+ split +:+ "_cls")
  else None.

End LoadArgs.

(** * Properties *)

(** ** Relabelling *)
Section RelabelFacts.
Import Relabel.

Lemma assign_row_eq_mask a b row :
  assign_row (map (fun v => v =? a) row) b row = map (subst1 a b) row.
Proof.
  induction row as [|v row IH]; simpl; [reflexivity|].
  now rewrite IH.
Qed.

Lemma assign_where_eq_mask a b img :
  assign_where (eq_mask a img) b img = map (map (subst1 a b)) img.
Proof.
  unfold eq_mask.
  induction img as [|r img IH]; cbn [map assign_where]; [reflexivity|].
  now rewrite assign_row_eq_mask, IH.
Qed.

Lemma setitem_eq_run img a b (h : heap) arr :
  h !! img = Some arr ->
  setitem_eq img a b h = (tt, <[img := map (map (subst1 a b)) arr]> h).
Proof.
  intros Hl. unfold setitem_eq. f_equal.
  apply map_eq. intros l. rewrite lookup_alter, lookup_insert.
  destruct (decide (img = l)) as [->|Hne].
  - rewrite Hl. simpl. now rewrite assign_where_eq_mask.
  - reflexivity.
Qed.

Lemma city_id_other v :
  ~ In v [0; 1; 2; 3; 4; 5; 6; 7; 8; 9; 10; 11; 12; 13; 14; 15; 16; 17; 18; 19; 255] ->
  city_id v = v.
Proof.
  intros Hn.
  destruct v as [|p|p]; [exfalso; apply Hn; simpl; tauto| |reflexivity].
  do 8 (try (destruct p as [p|p|]; try reflexivity));
    exfalso; apply Hn; simpl; tauto.
Qed.

Lemma subst1_other a b v : v <> a -> subst1 a b v = v.
Proof. intros Hne. unfold subst1. now apply Z.eqb_neq in Hne as ->. Qed.

Lemma cell_steps_cons a b l v :
  cell_steps ((a, b) :: l) v = cell_steps l (subst1 a b v).
Proof. reflexivity. Qed.

Lemma cell_steps_other (l : list (Z * Z)) v :
  Forall (fun ab => v <> ab.1) l -> cell_steps l v = v.
Proof.
  induction 1 as [|[a b] l Ha _ IH]; [reflexivity|].
  rewrite cell_steps_cons, (subst1_other a b v Ha). exact IH.
Qed.

Lemma chain_city_id v : chain v = city_id v.
Proof.
  destruct (in_dec Z.eq_dec v
    [0; 1; 2; 3; 4; 5; 6; 7; 8; 9; 10; 11; 12; 13; 14; 15; 16; 17; 18; 19; 255])
    as [Hin|Hn].
  - simpl in Hin.
    repeat (destruct Hin as [<-|Hin]; [reflexivity|]). contradiction.
  - rewrite (city_id_other v Hn). apply cell_steps_other.
    simpl in Hn. unfold substitutions.
    repeat (constructor; [cbn [fst]; intros ->; apply Hn; tauto|]).
    constructor.
Qed.

Lemma map_map2 {A B C} (f : A -> B) (g : B -> C) (m : list (list A)) :
  map (map g) (map (map f) m) = map (map (fun x => g (f x))) m.
Proof.
  rewrite map_map. apply map_ext. intros r. apply map_map.
Qed.

Lemma cell_steps_snoc l a b v :
  cell_steps (l ++ [(a, b)]) v = subst1 a b (cell_steps l v).
Proof. unfold cell_steps. rewrite fold_left_app. reflexivity. Qed.

(** One statement of [relabel], run on an array that already went through
    the substitutions [l]. *)
Lemma setitem_eq_then {A} img a b (k : St A) (h : heap) l arr :
  (setitem_eq img a b ;; k) (<[img := map (map (cell_steps l)) arr]> h)
  = k (<[img := map (map (cell_steps (l ++ [(a, b)]))) arr]> h).
Proof.
  unfold mbind, St_bind.
  rewrite (setitem_eq_run img a b _ (map (map (cell_steps l)) arr))
    by apply lookup_insert_eq.
  rewrite insert_insert_eq, map_map2. do 2 f_equal.
  apply map_ext. intros r. apply map_ext. intros v.
  symmetry. apply cell_steps_snoc.
Qed.

Lemma cell_steps_nil (arr : array2) : map (map (cell_steps [])) arr = arr.
Proof. erewrite map_ext; [apply map_id|]. intros r. apply map_id. Qed.

(** Running [relabel] on a live array: the same reference comes back and
    the object it names holds the substituted cells. *)
Lemma relabel_run img (h : heap) arr :
  h !! img = Some arr ->
  relabel img h = (img, <[img := map (map city_id) arr]> h).
Proof.
  intros Hl. rewrite <- (insert_id h img arr Hl) at 1.
  rewrite <- (cell_steps_nil arr) at 1.
  unfold relabel. rewrite !setitem_eq_then. cbn [app].
  unfold mret, St_ret. do 2 f_equal.
  apply map_ext. intros r. apply map_ext. intros v.
  rewrite <- (chain_city_id v). unfold chain, substitutions. reflexivity.
Qed.

Lemma shape_map f (arr : array2) : shape (map (map f) arr) = shape arr.
Proof.
  unfold shape. rewrite map_map. apply map_ext. intros r. apply length_map.
Qed.

Lemma array_steps_cells (l : list (Z * Z)) (arr : array2) :
  array_steps l arr = map (map (cell_steps l)) arr.
Proof.
  revert arr. induction l as [|[a b] l IH]; intros arr.
  - symmetry. apply cell_steps_nil.
  - change (array_steps ((a, b) :: l) arr)
      with (array_steps l (assign_where (eq_mask a arr) b arr)).
    rewrite IH, assign_where_eq_mask, map_map2. reflexivity.
Qed.

Lemma in_place_steps_city_id arr :
  in_place_steps arr = map (map city_id) arr.
Proof.
  unfold in_place_steps. rewrite array_steps_cells.
  apply map_ext. intros r. apply map_ext. intros v.
  rewrite <- (chain_city_id v). unfold chain, substitutions. reflexivity.
Qed.

(** C1 (as the code has it): for every label array, and so for one that
    holds each of 0..19 and 255 once, [relabel] leaves [city_id v] in the
    cell that held [v].  [city_id] is the documented table at every value
    but 19: the cell that held 19 ends as 0, because line 24 stores 255 in
    it and the last assignment, line 44, rewrites 255 to 0. *)
Theorem relabel_cells img (h : heap) arr :
  h !! img = Some arr ->
  (relabel img h).2 !! img = Some (map (map city_id) arr)
  /\ (forall v, v <> 19 -> city_id v = documented_table v)
  /\ city_id 19 = 0.
Proof.
  intros Hl. rewrite (relabel_run img h arr Hl). cbn [snd].
  split; [apply lookup_insert_eq|]. split; [|reflexivity].
  intros v Hv.
  destruct (in_dec Z.eq_dec v
    [0; 1; 2; 3; 4; 5; 6; 7; 8; 9; 10; 11; 12; 13; 14; 15; 16; 17; 18; 19; 255])
    as [Hin|Hn].
  - simpl in Hin.
    repeat (destruct Hin as [<-|Hin]; [reflexivity || contradiction|]).
    contradiction.
  - rewrite (city_id_other v Hn).
    destruct v as [|p|p]; [exfalso; apply Hn; simpl; tauto| |reflexivity].
    do 8 (try (destruct p as [p|p|]; try reflexivity));
      exfalso; apply Hn; simpl; tauto.
Qed.

Lemma relabel_cells_witness :
  ({[1%positive := every_value]} : heap) !! 1%positive = Some every_value
  /\ (relabel 1 {[1%positive := every_value]}).2 !! 1%positive
     = Some (map (map city_id) every_value).
Proof.
  split; [apply lookup_singleton_eq|].
  apply (relabel_cells 1 {[1%positive := every_value]} every_value).
  apply lookup_singleton_eq.
Defined.

(** C1 as stated fails: on the array holding every value once, the cell
    that held 19 ends as 0 where the documented table has 255. *)
Lemma relabel_every_value_not_documented :
  (relabel 1 {[1%positive := every_value]}).2 !! 1%positive
  = Some [ [7; 8; 11; 12; 13; 17; 19];
           [20; 21; 22; 23; 24; 25; 26];
           [27; 28; 31; 32; 33; 0; 0] ]
  /\ map (map documented_table) every_value
     = [ [7; 8; 11; 12; 13; 17; 19];
         [20; 21; 22; 23; 24; 25; 26];
         [27; 28; 31; 32; 33; 255; 0] ]
  /\ (relabel 1 {[1%positive := every_value]}).2 !! 1%positive
     <> Some (map (map documented_table) every_value).
Proof.
  rewrite (relabel_run 1 _ every_value) by apply lookup_singleton_eq.
  cbn [snd]. rewrite lookup_insert_eq.
  split; [reflexivity|]. split; [reflexivity|]. discriminate.
Qed.

(** C2 (as the code has it): [relabel] works in place.  It returns the
    reference it was given, the object behind it holds the result of the
    twenty-one masked assignments, each computed from the array as the
    previous one left it, the shape is kept, and no other object changes. *)
Theorem relabel_in_place img (h : heap) arr :
  h !! img = Some arr ->
  relabel img h = (img, <[img := in_place_steps arr]> h)
  /\ shape (in_place_steps arr) = shape arr
  /\ (forall l, l <> img -> (relabel img h).2 !! l = h !! l).
Proof.
  intros Hl. rewrite (relabel_run img h arr Hl), in_place_steps_city_id.
  split; [reflexivity|]. split; [apply shape_map|].
  intros l Hne. cbn [snd]. apply lookup_insert_ne. congruence.
Qed.

Lemma relabel_in_place_witness :
  ({[1%positive := [[19; 6]]]} : heap) !! 1%positive = Some [[19; 6]]
  /\ relabel 1 {[1%positive := [[19; 6]]]}
     = (1%positive, <[1%positive := in_place_steps [[19; 6]]]> {[1%positive := [[19; 6]]]}).
Proof.
  split; [apply lookup_singleton_eq|].
  apply (relabel_in_place 1 {[1%positive := [[19; 6]]]} [[19; 6]]).
  apply lookup_singleton_eq.
Defined.

(** C2 as stated fails: the reference returned is the one passed in, and
    the array passed in has changed; the 19 ends as 0, which a substitution
    read from a snapshot of the input would have left at 255. *)
Lemma relabel_mutates_argument :
  ({[1%positive := [[19; 6]]]} : heap) !! 1%positive = Some [[19; 6]]
  /\ (relabel 1 {[1%positive := [[19; 6]]]}).1 = 1%positive
  /\ (relabel 1 {[1%positive := [[19; 6]]]}).2 !! 1%positive = Some [[0; 19]]
  /\ map (map documented_table) [[19; 6]] = [[255; 19]].
Proof.
  split; [apply lookup_singleton_eq|].
  rewrite (relabel_run 1 _ [[19; 6]]) by apply lookup_singleton_eq.
  split; [reflexivity|]. cbn [snd]. rewrite lookup_insert_eq.
  split; reflexivity.
Qed.

End RelabelFacts.

(** ** Nearest-neighbour resize *)
Section ResizeFacts.
Import Resize.
















End ResizeFacts.

(** ** Output file name *)
Section EvaluateFacts.
Import Evaluate.
Local Open Scope string_scope.

(** C5 at a name that holds its extension twice: [str.replace] rewrites
    the occurrence inside the stem too, so [jpg_0001.jpg] is saved as
    [png_0001.png] and not as [jpg_0001.png]. *)
Theorem output_name_rewrites_stem :
  output_name "results_pascal_val/results/VOC2012/Segmentation/comp6_val_cls"
              "/data/VOC2012/JPEGImages/jpg_0001.jpg"
  = "results_pascal_val/results/VOC2012/Segmentation/comp6_val_cls/png_0001.png".
Proof. reflexivity. Qed.

(** On an ordinary Pascal name only the extension changes. *)
Example output_name_pascal :
  output_name "out" "/data/VOC2012/JPEGImages/2007_000033.jpg"
  = "out/2007_000033.png".
Proof. reflexivity. Qed.

Lemma string_app_cons c (x y : string) : String c x +:+ y = String c (x +:+ y).
Proof. reflexivity. Qed.

Lemma string_app_nil (y : string) : "" +:+ y = y.
Proof. reflexivity. Qed.

Lemma string_app_assoc (x y z : string) : (x +:+ y) +:+ z = x +:+ (y +:+ z).
Proof.
  induction x as [|c x IH]; [reflexivity|].
  now rewrite !string_app_cons, IH.
Qed.

Lemma split_no_sep c y : PyStr.has_char c y = false -> PyStr.split c y = [y].
Proof.
  induction y as [|c' y IH]; cbn [PyStr.has_char PyStr.split]; [reflexivity|].
  intros [Hc Hy]%orb_false_iff. rewrite Hc, (IH Hy). reflexivity.
Qed.

(** After the last separator comes the last field. *)
Lemma last_field_split c x y :
  PyStr.has_char c y = false ->
  PyStr.last_field (PyStr.split c (x +:+ String c y)) = y.
Proof.
  intros Hy. unfold PyStr.last_field.
  assert (H : exists f fs, PyStr.split c (x +:+ String c y) = f :: fs
                           /\ fs <> [] /\ List.last fs EmptyString = y).
  { induction x as [|a x (f & fs & Hs & Hne & Hl)];
      rewrite ?string_app_cons, ?string_app_nil; cbn [PyStr.split].
    - rewrite Ascii.eqb_refl, (split_no_sep c y Hy).
      exists EmptyString, [y]. repeat split. discriminate.
    - rewrite Hs. destruct (Ascii.eqb a c).
      + exists EmptyString, (f :: fs). repeat split; [discriminate|].
        destruct fs; [contradiction|exact Hl].
      + exists (String a f), fs. repeat split; assumption. }
  destruct H as (f & fs & -> & Hne & Hl).
  destruct fs; [contradiction|exact Hl].
Qed.

Lemma prefix_inv old s :
  String.prefix old s = true -> exists rest, s = old +:+ rest.
Proof.
  revert old. induction s as [|c s IH]; intros [|a old]; cbn [String.prefix].
  - exists EmptyString. reflexivity.
  - discriminate.
  - exists (String c s). reflexivity.
  - destruct (ascii_dec a c) as [->|]; [|discriminate].
    intros [rest ->]%IH. exists rest. reflexivity.
Qed.

Lemma replace_from_skip old new pre rest :
  PyStr.replace_from old new (String.length pre) (pre +:+ rest)
  = PyStr.replace_from old new 0 rest.
Proof.
  induction pre as [|c pre IH]; [reflexivity|].
  rewrite string_app_cons. exact IH.
Qed.

Lemma string_length_app (x y : string) :
  String.length (x +:+ y) = (String.length x + String.length y)%nat.
Proof.
  induction x as [|c x IH]; [reflexivity|].
  rewrite string_app_cons. cbn [String.length]. lia.
Qed.

(** Replacing a non-empty string by itself changes nothing. *)
Lemma replace_from_same a old s :
  PyStr.replace_from (String a old) (String a old) 0 s = s.
Proof.
  remember (String.length s) as n eqn:Hn.
  revert s Hn. induction n as [n IH] using lt_wf_ind. intros s Hn.
  destruct s as [|c s]; [reflexivity|]. cbn [PyStr.replace_from].
  destruct (String.prefix (String a old) (String c s)) eqn:Hp.
  - destruct (prefix_inv _ _ Hp) as [rest Hrest].
    rewrite string_app_cons in Hrest. injection Hrest as -> ->.
    replace (String.length (String a old) - 1)%nat with (String.length old)
      by (cbn [String.length]; lia).
    rewrite replace_from_skip.
    rewrite (IH (String.length rest)); [reflexivity| |reflexivity].
    subst n. cbn [String.length]. rewrite string_length_app. lia.
  - f_equal. apply (IH (String.length s)); [|reflexivity].
    subst n. cbn [String.length]. lia.
Qed.

(** For the pictures the directory scan yields, [dir/base] with [base]
    ending in [.png], the mask is saved under the same base name. *)
Lemma output_name_png savedir dir stem :
  PyStr.has_char "/" (stem +:+ ".png") = false ->
  output_name savedir (dir +:+ "/" +:+ stem +:+ ".png")
  = savedir +:+ "/" +:+ stem +:+ ".png".
Proof.
  intros Hbase.
  assert (Ename : PyStr.last_field (PyStr.split "/" (dir +:+ "/" +:+ stem +:+ ".png"))
                  = stem +:+ ".png")
    by exact (last_field_split "/" dir (stem +:+ ".png") Hbase).
  assert (Eextn : PyStr.last_field (PyStr.split "." (dir +:+ "/" +:+ stem +:+ ".png"))
                  = "png").
  { replace (dir +:+ "/" +:+ stem +:+ ".png")
      with ((dir +:+ "/" +:+ stem) +:+ String "." "png")
      by (now rewrite !string_app_assoc).
    exact (last_field_split "." _ "png" eq_refl). }
  unfold output_name. cbv zeta. rewrite Ename, Eextn.
  unfold PyStr.replace. now rewrite replace_from_same.
Qed.

End EvaluateFacts.

(** ** Dataset enumeration *)
Section DatasetFacts.
Import Dataset.
Local Open Scope string_scope.

Lemma print_error_message_run message out :
  print_error_message message out = (Raised SystemExit, (out ++ [message])%list).
Proof. reflexivity. Qed.

(** The directory scan: no match aborts with the diagnostic, otherwise
    the first five matches come back in the order [glob] gave them. *)
Lemma load_dataset_city fs a out :
  dataset a = "city" ->
  load_dataset fs a out
  = match glob fs (city_pattern a) with
    | [] => (Raised SystemExit,
             (out ++ ["No files in directory: " +:+ city_pattern a])%list)
    | l => (Returned (firstn 5 l),
            (out ++ ["# of images for testing: "
                     +:+ PyStr.of_nat (length (firstn 5 l))])%list)
    end.
Proof.
  intros Hd. unfold load_dataset. rewrite Hd.
  change (String.eqb "city" "city") with true. cbv iota.
  destruct (glob fs (city_pattern a)) as [|p l]; reflexivity.
Qed.

(** The loop over the manifest, when it runs to the end. *)
Lemma read_manifest_returned fs a lines acc out l out' :
  read_manifest fs a lines acc out = (Returned l, out') ->
  l = (acc ++ omap (listed a) lines)%list /\ out' = out.
Proof.
  revert acc. induction lines as [|line lines IH]; intros acc; cbn [read_manifest].
  - intros [= <- <-]. cbn [omap]. now rewrite app_nil_r.
  - unfold mbind, Run_bind, listed. cbn [omap list_omap].
    destruct (PyStr.first_field line) as [f|]; [|discriminate].
    cbn [mret Run_ret fmap option_fmap option_map].
    destruct (isfile fs (rgb_img_loc a f)); cbn [negb].
    + cbn [mret Run_ret]. intros H. apply IH in H as [-> ->].
      now rewrite <- app_assoc.
    + rewrite print_error_message_run. discriminate.
Qed.

Lemma read_manifest_present fs a lines acc out :
  Forall (present fs a) lines ->
  read_manifest fs a lines acc out
  = (Returned (acc ++ omap (listed a) lines)%list, out).
Proof.
  intros Hall. revert acc.
  induction Hall as [|line lines (f & Hf & Hon) _ IH]; intros acc;
    cbn [read_manifest].
  - cbn [omap]. now rewrite app_nil_r.
  - unfold mbind, Run_bind, listed. cbn [omap list_omap].
    rewrite Hf. cbn [mret Run_ret fmap option_fmap option_map].
    rewrite Hon. cbn [negb mret Run_ret].
    fold (listed a). rewrite IH. now rewrite <- app_assoc.
Qed.


Lemma read_manifest_ext fs1 fs2 a lines acc out :
  (forall p, isfile fs1 p = isfile fs2 p) ->
  read_manifest fs1 a lines acc out = read_manifest fs2 a lines acc out.
Proof.
  intros Hfile. revert acc out.
  induction lines as [|line lines IH]; intros acc out; [reflexivity|].
  cbn [read_manifest]. unfold mbind, Run_bind.
  destruct (PyStr.first_field line) as [f|]; [|reflexivity].
  cbn [mret Run_ret]. rewrite Hfile.
  destruct (isfile fs2 (rgb_img_loc a f)); cbn [negb mret Run_ret].
  - apply IH.
  - reflexivity.
Qed.

(** The manifest variant, once the manifest is there and readable. *)
Lemma load_dataset_pascal fs a out lines :
  dataset a = "pascal" ->
  isfile fs (data_file a) = true ->
  readlines fs (data_file a) = Some lines ->
  load_dataset fs a out
  = match read_manifest fs a lines [] out with
    | (Returned [], out') => (Raised (UnboundLocalError "image_path"), out')
    | (Returned l, out') =>
        (Returned (firstn 5 l),
         (out' ++ ["# of images for testing: "
                   +:+ PyStr.of_nat (length (firstn 5 l))])%list)
    | (Raised e, out') => (Raised e, out')
    end.
Proof.
  intros Hd Hfile Hread. unfold load_dataset. rewrite Hd.
  change (String.eqb "pascal" "city") with false.
  change (String.eqb "pascal" "pascal") with true. cbv iota.
  rewrite Hfile. unfold open_lines. rewrite Hread.
  unfold mbind, Run_bind. cbn [negb mret Run_ret].
  destruct (read_manifest fs a lines [] out) as [[l|e] out']; [|reflexivity].
  destruct l as [|p l]; reflexivity.
Qed.

Lemma load_dataset_no_manifest fs a out :
  dataset a = "pascal" ->
  isfile fs (data_file a) = false ->
  load_dataset fs a out
  = (Raised SystemExit, (out ++ [data_file a +:+ " file does not exist"])%list).
Proof.
  intros Hd Hfile. unfold load_dataset. rewrite Hd.
  change (String.eqb "pascal" "city") with false.
  change (String.eqb "pascal" "pascal") with true. cbv iota.
  rewrite Hfile. reflexivity.
Qed.

Lemma load_dataset_unsupported fs a out :
  String.eqb (dataset a) "city" = false ->
  String.eqb (dataset a) "pascal" = false ->
  load_dataset fs a out
  = (Raised SystemExit, (out ++ [dataset a +:+ " dataset not yet supported"])%list).
Proof.
  intros Hc Hp. unfold load_dataset. rewrite Hc, Hp. reflexivity.
Qed.

(** C3 (as the code has it): the enumeration is a function of what the
    file system answers.  Two runs in which [glob], [isfile] and the
    manifest read alike end alike, path for path and line for line; and
    the directory scan returns the first five matches in the order [glob]
    enumerated them, without sorting. *)
Theorem load_dataset_deterministic fs1 fs2 a out :
  (forall p, glob fs1 p = glob fs2 p) ->
  (forall p, isfile fs1 p = isfile fs2 p) ->
  (forall p, readlines fs1 p = readlines fs2 p) ->
  load_dataset fs1 a out = load_dataset fs2 a out
  /\ (dataset a = "city" -> glob fs1 (city_pattern a) <> [] ->
      (load_dataset fs1 a out).1 = Returned (firstn 5 (glob fs1 (city_pattern a)))).
Proof.
  intros Hglob Hfile Hread. split.
  - destruct (String.eqb (dataset a) "city") eqn:Hc.
    { apply String.eqb_eq in Hc. rewrite !load_dataset_city by exact Hc.
      now rewrite Hglob. }
    destruct (String.eqb (dataset a) "pascal") eqn:Hp.
    2:{ now rewrite !load_dataset_unsupported. }
    apply String.eqb_eq in Hp.
    destruct (isfile fs1 (data_file a)) eqn:Hm.
    2:{ rewrite !load_dataset_no_manifest; [reflexivity|exact Hp| |exact Hp|exact Hm].
        now rewrite <- Hfile. }
    destruct (readlines fs1 (data_file a)) as [lines|] eqn:Hl.
    + rewrite (load_dataset_pascal fs1 a out lines Hp Hm Hl).
      rewrite (load_dataset_pascal fs2 a out lines Hp);
        [|now rewrite <- Hfile|now rewrite <- Hread].
      now rewrite (read_manifest_ext fs1 fs2).
    + unfold load_dataset. rewrite Hp.
      change (String.eqb "pascal" "city") with false.
      change (String.eqb "pascal" "pascal") with true. cbv iota.
      rewrite <- Hfile, Hm. unfold open_lines. rewrite <- Hread, Hl. reflexivity.
  - intros Hc Hne. rewrite (load_dataset_city fs1 a out Hc).
    destruct (glob fs1 (city_pattern a)); [contradiction|reflexivity].
Qed.

Lemma load_dataset_deterministic_witness :
  load_dataset Fixtures.fs_bochum_first Fixtures.city_args []
  = load_dataset Fixtures.fs_bochum_first_again Fixtures.city_args []
  /\ (load_dataset Fixtures.fs_bochum_first Fixtures.city_args []).1
     = Returned [Fixtures.bochum; Fixtures.aachen].
Proof.
  destruct (load_dataset_deterministic
              Fixtures.fs_bochum_first Fixtures.fs_bochum_first_again
              Fixtures.city_args []
              (fun _ => eq_refl)
              (fun p => orb_comm (String.eqb p Fixtures.aachen)
                                 (String.eqb p Fixtures.bochum))
              (fun _ => eq_refl))
    as [Hsame Hcity].
  split; [exact Hsame|].
  apply Hcity; [reflexivity|discriminate].
Defined.

(** C3 as stated fails: two trees with the same two pictures, enumerated
    in different orders, give different sequences, and the one that
    enumerates [bochum] first returns it before [aachen], unsorted. *)
Lemma load_dataset_follows_enumeration :
  (load_dataset Fixtures.fs_bochum_first Fixtures.city_args []).1
  = Returned [Fixtures.bochum; Fixtures.aachen]
  /\ (load_dataset Fixtures.fs_aachen_first Fixtures.city_args []).1
     = Returned [Fixtures.aachen; Fixtures.bochum]
  /\ (forall p, isfile Fixtures.fs_bochum_first p = isfile Fixtures.fs_aachen_first p)
  /\ String.ltb Fixtures.aachen Fixtures.bochum = true.
Proof.
  split; [reflexivity|]. split; [reflexivity|]. split; [|reflexivity].
  intros p. reflexivity.
Qed.

(** C4: whenever [load_dataset] returns, it returns the first five entries
    of the enumerated sequence, so never more than five paths. *)
Theorem load_dataset_first_five fs a out l out' :
  load_dataset fs a out = (Returned l, out') ->
  l = firstn 5 (enumerated fs a) /\ (length l <= 5)%nat.
Proof.
  intros Hrun.
  assert (Hl : l = firstn 5 (enumerated fs a)).
  { unfold enumerated.
    destruct (String.eqb (dataset a) "city") eqn:Hc.
    { apply String.eqb_eq in Hc. rewrite (load_dataset_city fs a out Hc) in Hrun.
      destruct (glob fs (city_pattern a)); [discriminate|]. congruence. }
    destruct (String.eqb (dataset a) "pascal") eqn:Hp.
    2:{ rewrite (load_dataset_unsupported fs a out Hc Hp) in Hrun. discriminate. }
    apply String.eqb_eq in Hp.
    destruct (isfile fs (data_file a)) eqn:Hm.
    2:{ rewrite (load_dataset_no_manifest fs a out Hp Hm) in Hrun. discriminate. }
    destruct (readlines fs (data_file a)) as [lines|] eqn:Hread.
    - rewrite (load_dataset_pascal fs a out lines Hp Hm Hread) in Hrun.
      destruct (read_manifest fs a lines [] out) as [[il|e] o] eqn:Hloop;
        [|discriminate].
      apply read_manifest_returned in Hloop as [-> _]. cbn [app] in Hrun.
      change (default [] (Some lines)) with lines.
      destruct (omap (listed a) lines); [discriminate|].
      injection Hrun as <- _. reflexivity.
    - unfold load_dataset in Hrun. rewrite Hp in Hrun.
      change (String.eqb "pascal" "city") with false in Hrun.
      change (String.eqb "pascal" "pascal") with true in Hrun. cbv iota in Hrun.
      rewrite Hm in Hrun. unfold open_lines in Hrun. rewrite Hread in Hrun.
      discriminate. }
  split; [exact Hl|]. subst l. rewrite length_take. lia.
Qed.

Lemma load_dataset_first_five_witness :
  load_dataset Fixtures.fs_seven Fixtures.city_args []
  = (Returned ["/data/leftImg8bit/val/ulm/1.png";
               "/data/leftImg8bit/val/ulm/2.png";
               "/data/leftImg8bit/val/ulm/3.png";
               "/data/leftImg8bit/val/ulm/4.png";
               "/data/leftImg8bit/val/ulm/5.png"],
     ["# of images for testing: 5"])
  /\ (length ["/data/leftImg8bit/val/ulm/1.png";
              "/data/leftImg8bit/val/ulm/2.png";
              "/data/leftImg8bit/val/ulm/3.png";
              "/data/leftImg8bit/val/ulm/4.png";
              "/data/leftImg8bit/val/ulm/5.png"] <= 5)%nat.
Proof.
  split; [reflexivity|].
  exact (proj2 (load_dataset_first_five Fixtures.fs_seven Fixtures.city_args [] _ _
                  eq_refl)).
Defined.

(** C7 at a Pascal tree whose manifest is empty: no image is enumerated,
    and the run ends in [UnboundLocalError] on [image_path], a name only
    the directory-scan branch assigns, before any diagnostic is printed. *)
Theorem load_dataset_empty_manifest :
  load_dataset Fixtures.fs_empty_manifest Fixtures.pascal_args []
  = (Raised (UnboundLocalError "image_path"), []).
Proof. reflexivity. Qed.

(** The directory scan does what C7 asks. *)
Lemma load_dataset_city_no_match fs a out :
  dataset a = "city" -> glob fs (city_pattern a) = [] ->
  load_dataset fs a out
  = (Raised SystemExit,
     (out ++ ["No files in directory: " +:+ city_pattern a])%list).
Proof.
  intros Hc Hnone. rewrite (load_dataset_city fs a out Hc), Hnone. reflexivity.
Qed.



End DatasetFacts.

(** ** Freezing the base network *)
Section FreezeFacts.
Import Freeze.

(** Induction over the module tree, with the property at hand for every
    child. *)
Lemma nn_module_tree_ind (P : nn_module -> Prop) :
  (forall own children,
      Forall (fun nc : string * nn_module => P nc.2) children ->
      P (NNModule own children)) ->
  forall m, P m.
Proof.
  intros Hnode. fix IH 1. intros [own children]. apply Hnode.
  induction children as [|[name child] children IHc]; constructor.
  - apply IH.
  - exact IHc.
Qed.

Lemma elem_of_unique memo l p :
  p ∈ unique memo l <-> p ∈ l /\ p ∉ memo.
Proof.
  revert memo. induction l as [|q l IH]; intros memo; cbn [unique].
  - rewrite elem_of_nil. tauto.
  - destruct (decide (q ∈ memo)) as [Hin|Hout].
    + rewrite IH, elem_of_cons. split; [tauto|].
      intros [[->|Hl] Hm]; tauto.
    + rewrite !elem_of_cons, IH. split.
      * intros [->|[Hl Hm]]; [tauto|]. split; [tauto|].
        intros Hp. apply Hm. apply elem_of_union. tauto.
      * intros [[->|Hl] Hm]; [tauto|].
        destruct (decide (p = q)) as [->|Hne]; [tauto|]. right.
        split; [exact Hl|]. rewrite elem_of_union, elem_of_singleton. tauto.
Qed.

Lemma NoDup_unique memo l : NoDup (unique memo l).
Proof.
  revert memo. induction l as [|q l IH]; intros memo; cbn [unique].
  - constructor.
  - destruct (decide (q ∈ memo)); [apply IH|].
    constructor; [|apply IH].
    rewrite elem_of_unique, elem_of_union, elem_of_singleton. tauto.
Qed.

Lemma elem_of_parameters m p : p ∈ parameters m <-> p ∈ registered m.
Proof.
  unfold parameters. rewrite elem_of_unique, elem_of_empty. tauto.
Qed.

Lemma lookup_set_all b ps (s : gmap param bool) p :
  set_all b ps s !! p = if decide (p ∈ ps) then Some b else s !! p.
Proof.
  unfold set_all. revert s. induction ps as [|q ps IH]; intros s; cbn [fold_left].
  - destruct (decide (p ∈ [])) as [Hin|_]; [|reflexivity].
    now apply elem_of_nil in Hin.
  - rewrite IH.
    destruct (decide (p ∈ ps)) as [Hin|Hout].
    + rewrite decide_True by (apply elem_of_cons; tauto). reflexivity.
    + destruct (decide (p = q)) as [->|Hne].
      * rewrite lookup_insert_eq, decide_True by (apply elem_of_cons; tauto).
        reflexivity.
      * rewrite lookup_insert_ne by congruence.
        rewrite decide_False; [reflexivity|].
        rewrite elem_of_cons. tauto.
Qed.

Lemma descendant_registered m p : p ∈ descendant_params m -> p ∈ registered m.
Proof.
  destruct m as [own children]. unfold descendant_params. cbn.
  rewrite elem_of_app. tauto.
Qed.

(** The store after [_freeze]: the flag of every parameter of a module
    below [m] is [not freeze], every other entry is as before. *)
Lemma lookup_freeze m freeze (s : gmap param bool) p :
  _freeze m freeze s !! p
  = if decide (p ∈ descendant_params m) then Some (negb freeze) else s !! p.
Proof.
  revert s. induction m as [own children IH] using nn_module_tree_ind.
  unfold descendant_params. cbn [_freeze named_children].
  induction IH as [|[name child] children IHchild _ IHrest]; intros s.
  - cbn. destruct (decide (p ∈ [])) as [Hin|_]; [|reflexivity].
    now apply elem_of_nil in Hin.
  - cbn [fold_left flat_map snd]. rewrite IHrest. cbn [snd] in IHchild.
    rewrite IHchild, lookup_set_all.
    destruct (decide (p ∈ flat_map (fun nc => registered nc.2) children))
      as [Hrest|Hrest].
    + rewrite decide_True by (apply elem_of_app; tauto). reflexivity.
    + destruct (decide (p ∈ registered child)) as [Hc|Hc].
      * rewrite (decide_True (P := p ∈ (registered child ++ _)%list))
          by (apply elem_of_app; tauto).
        rewrite (decide_True (P := p ∈ parameters child))
          by (apply elem_of_parameters; exact Hc).
        destruct (decide (p ∈ descendant_params child)); reflexivity.
      * rewrite (decide_False (P := p ∈ (registered child ++ _)%list))
          by (rewrite elem_of_app; tauto).
        rewrite (decide_False (P := p ∈ parameters child))
          by (rewrite elem_of_parameters; exact Hc).
        rewrite decide_False; [reflexivity|].
        intros Hd. apply Hc. apply descendant_registered. exact Hd.
Qed.

(** C9: after [_freeze m f] the flag of every parameter of every module
    below [m] is [not f]; and [freeze_base], on a model that has a
    [base_net], sets the flag to [False] on exactly the parameters of the
    modules below [base_net] and leaves every other entry of the store as
    it was. *)
Theorem freeze_requires_grad :
  (forall m freeze (s : gmap param bool) p,
      p ∈ descendant_params m -> _freeze m freeze s !! p = Some (negb freeze))
  /\ (forall model base_net (s : gmap param bool),
        getattr model "base_net" = Some base_net ->
        exists s' line,
          freeze_base model s = Some (s', line)
          /\ forall p, s' !! p = if decide (p ∈ descendant_params base_net)
                                then Some false else s !! p).
Proof.
  split.
  - intros m freeze s p Hp. rewrite lookup_freeze, decide_True by exact Hp.
    reflexivity.
  - intros model base_net s Hget. unfold freeze_base. rewrite Hget.
    eexists _, _. split; [reflexivity|].
    intros p. apply lookup_freeze.
Qed.

Lemma count_params_app s ps qs counts :
  count_params s (ps ++ qs) counts = count_params s qs (count_params s ps counts).
Proof. unfold count_params. apply fold_left_app. Qed.

Lemma count_params_filter s ps a b :
  count_params s ps (a, b)
  = ((a + length (List.filter (requires_grad s) ps))%nat,
     (b + length (List.filter (fun p => negb (requires_grad s p)) ps))%nat).
Proof.
  unfold count_params. revert a b.
  induction ps as [|p ps IH]; intros a b; cbn [fold_left List.filter].
  - cbn. f_equal; lia.
  - destruct (requires_grad s p); cbn [negb]; rewrite IH; cbn [length];
      f_equal; lia.
Qed.

(** The recursive call contributes nothing: the outer loop is the count
    over what the inner loops visit. *)
Lemma count_freeze_visited m s :
  _count_freeze m s = count_params s (visited m) (0, 0)%nat.
Proof.
  destruct m as [own children]. unfold visited. cbn [_count_freeze named_children].
  generalize (0, 0)%nat.
  induction children as [|[name child] children IH]; intros counts.
  - reflexivity.
  - cbn [fold_left flat_map snd]. rewrite IH, count_params_app. reflexivity.
Qed.

Lemma visited_descendant m p : p ∈ visited m <-> p ∈ descendant_params m.
Proof.
  unfold visited, descendant_params.
  rewrite !list_elem_of_In, !in_flat_map.
  split; intros (nc & Hnc & Hp); exists nc; split; try exact Hnc;
    apply list_elem_of_In; apply list_elem_of_In in Hp;
    apply elem_of_parameters; exact Hp.
Qed.

(** C10 (as the code has it): [_count_freeze m] counts what its loops
    visit, the parameters of each direct child's subtree taken child by
    child.  The two counts add up to that number; when no parameter is
    registered under two children it is the number of parameters below
    [m], each counted once.  The parameters registered on [m] itself play
    no part, nor do the results of the recursive calls. *)
Theorem count_freeze_counts m (s : gmap param bool) :
  _count_freeze m s
  = (length (List.filter (requires_grad s) (visited m)),
     length (List.filter (fun p => negb (requires_grad s p)) (visited m)))
  /\ ((_count_freeze m s).1 + (_count_freeze m s).2 = length (visited m))%nat
  /\ (NoDup (visited m) ->
      length (visited m) = size (list_to_set (descendant_params m) : gset param))
  /\ _count_freeze m s = _count_freeze (NNModule [] (named_children m)) s.
Proof.
  assert (Hc : _count_freeze m s
               = (length (List.filter (requires_grad s) (visited m)),
                  length (List.filter (fun p => negb (requires_grad s p)) (visited m)))).
  { rewrite count_freeze_visited, count_params_filter. reflexivity. }
  split; [exact Hc|]. split; [|split].
  - rewrite Hc. cbn [fst snd]. generalize (visited m). intros l.
    induction l as [|p l IH]; [reflexivity|].
    cbn [List.filter length]. destruct (requires_grad s p); cbn [negb length]; lia.
  - intros Hnd. rewrite <- (size_list_to_set (C := gset param) (visited m) Hnd).
    f_equal. apply set_eq. intros p.
    rewrite !elem_of_list_to_set. apply visited_descendant.
  - destruct m as [own children]. reflexivity.
Qed.

(** C10 as stated fails: with one parameter registered under two
    children the counts add up to 2, for a single parameter below. *)
Lemma count_freeze_tied_twice :
  _count_freeze tied {[1%positive := true]} = (2, 0)%nat
  /\ size (list_to_set (descendant_params tied) : gset param) = 1%nat.
Proof.
  split; [reflexivity|].
  cbn. rewrite union_idemp_L, union_empty_r_L. apply size_singleton.
Qed.

(** Freezing the base of a small model: only what lies below [base_net]
    changes. *)
Example freeze_base_small :
  freeze_base (NNModule [9%positive]
                 [("base_net", NNModule [1%positive]
                                 [("level1", NNModule [2%positive; 3%positive] [])]);
                  ("head", NNModule [4%positive] [])])
              {[1%positive := true; 2%positive := true; 3%positive := true;
                4%positive := true; 9%positive := true]}
  = Some ({[1%positive := true; 2%positive := false; 3%positive := false;
            4%positive := true; 9%positive := true]},
          "Parameters unfrozen = 2, Parameters frozen = 2 ").
Proof. vm_compute. reflexivity. Qed.

End FreezeFacts.

(** ** More on relabelling *)
Section RelabelMore.
Import Relabel Postprocess.

Lemma Forall2_map_cells (P Q : Z -> Prop) (f : Z -> Z) (arr : array2) :
  (forall v, P v -> Q (f v)) ->
  Forall (Forall P) arr -> Forall (Forall Q) (map (map f) arr).
Proof.
  intros Hf Harr. induction Harr as [|r arr Hr _ IH]; cbn [map]; constructor.
  - induction Hr as [|v r Hv _ IHr]; cbn [map]; constructor; auto.
  - exact IH.
Qed.

Lemma city_id_byte v : 0 <= v < 256 -> 0 <= city_id v < 256.
Proof.
  intros Hv.
  destruct (in_dec Z.eq_dec v
    [0; 1; 2; 3; 4; 5; 6; 7; 8; 9; 10; 11; 12; 13; 14; 15; 16; 17; 18; 19; 255])
    as [Hin|Hn].
  - simpl in Hin.
    repeat (destruct Hin as [<-|Hin]; [cbn; lia|]). contradiction.
  - rewrite (city_id_other v Hn). exact Hv.
Qed.

Lemma train_range_cases v :
  0 <= v <= 19 ->
  In v [0; 1; 2; 3; 4; 5; 6; 7; 8; 9; 10; 11; 12; 13; 14; 15; 16; 17; 18; 19].
Proof. intros Hv. simpl. lia. Qed.

Lemma city_id_in_city_ids v : 0 <= v <= 19 -> In (city_id v) city_ids.
Proof.
  intros Hv. apply train_range_cases in Hv. simpl in Hv.
  repeat (destruct Hv as [<-|Hv]; [cbn; tauto|]). contradiction.
Qed.

Lemma train_id_city_id v : 0 <= v <= 18 -> train_id (city_id v) = v.
Proof.
  intros Hv. assert (Hv' : 0 <= v <= 19) by lia.
  apply train_range_cases in Hv'. simpl in Hv'.
  repeat (destruct Hv' as [<-|Hv']; [reflexivity || lia|]). contradiction.
Qed.

Lemma map_cells_inj (f g : Z -> Z) (P : Z -> Prop) (a1 a2 : array2) :
  (forall v, P v -> g (f v) = v) ->
  Forall (Forall P) a1 -> Forall (Forall P) a2 ->
  map (map f) a1 = map (map f) a2 -> a1 = a2.
Proof.
  intros Hgf H1 H2 Heq.
  assert (Hback : forall a, Forall (Forall P) a -> map (map g) (map (map f) a) = a).
  { intros a Ha. rewrite map_map2.
    induction Ha as [|r a Hr _ IH]; cbn [map]; [reflexivity|]. f_equal; [|exact IH].
    induction Hr as [|v r Hv _ IHr]; cbn [map]; [reflexivity|].
    now rewrite (Hgf v Hv), IHr. }
  rewrite <- (Hback a1 H1), <- (Hback a2 H2), Heq. reflexivity.
Qed.

(** X1: a byte array stays a byte array: if every cell is in 0..255
    before [relabel], every cell is in 0..255 afterwards. *)
Theorem relabel_stays_byte img (h : heap) arr :
  h !! img = Some arr ->
  Forall (Forall (fun v => 0 <= v < 256)) arr ->
  exists arr', (relabel img h).2 !! img = Some arr'
               /\ shape arr' = shape arr
               /\ Forall (Forall (fun v => 0 <= v < 256)) arr'.
Proof.
  intros Hl Hb. exists (map (map city_id) arr).
  rewrite (relabel_run img h arr Hl). cbn [snd].
  split; [apply lookup_insert_eq|]. split; [apply shape_map|].
  eapply Forall2_map_cells; [|exact Hb]. exact city_id_byte.
Qed.

Lemma relabel_stays_byte_witness :
  ({[1%positive := every_value]} : heap) !! 1%positive = Some every_value
  /\ exists arr', (relabel 1 {[1%positive := every_value]}).2 !! 1%positive = Some arr'
                  /\ shape arr' = shape every_value
                  /\ Forall (Forall (fun v => 0 <= v < 256)) arr'.
Proof.
  split; [apply lookup_singleton_eq|].
  apply (relabel_stays_byte 1 {[1%positive := every_value]} every_value).
  - apply lookup_singleton_eq.
  - unfold every_value. repeat (constructor; try lia).
Defined.

(** X2: on the output of a twenty-class arg-max, cells in 0..19, every
    cell of the relabelled array is one of the twenty identifiers of
    [city_ids]; in particular none is 255 and none is in 1..6. *)
Theorem relabel_train_ids img (h : heap) arr :
  h !! img = Some arr ->
  Forall (Forall (fun v => 0 <= v <= 19)) arr ->
  exists arr', (relabel img h).2 !! img = Some arr'
               /\ Forall (Forall (fun v => In v city_ids /\ v <> 255
                                           /\ ~ (1 <= v <= 6))) arr'.
Proof.
  intros Hl Hb. exists (map (map city_id) arr).
  rewrite (relabel_run img h arr Hl). cbn [snd].
  split; [apply lookup_insert_eq|].
  eapply Forall2_map_cells; [|exact Hb].
  intros v Hv. pose proof (city_id_in_city_ids v Hv) as Hin.
  split; [exact Hin|]. unfold city_ids in Hin. simpl in Hin. lia.
Qed.

Lemma relabel_train_ids_witness :
  ({[1%positive := [[19; 6]; [0; 18]]]} : heap) !! 1%positive = Some [[19; 6]; [0; 18]]
  /\ exists arr', (relabel 1 {[1%positive := [[19; 6]; [0; 18]]]}).2 !! 1%positive
                  = Some arr'
                  /\ Forall (Forall (fun v => In v city_ids /\ v <> 255
                                              /\ ~ (1 <= v <= 6))) arr'.
Proof.
  split; [apply lookup_singleton_eq|].
  apply (relabel_train_ids 1 {[1%positive := [[19; 6]; [0; 18]]]} [[19; 6]; [0; 18]]).
  - apply lookup_singleton_eq.
  - repeat (constructor; try lia).
Defined.

(** X3: [relabel] keeps the nineteen classes apart: two label maps with
    cells in 0..18 that are relabelled to the same array are the same. *)
Theorem relabel_keeps_classes_apart img (h1 h2 : heap) a1 a2 :
  h1 !! img = Some a1 -> h2 !! img = Some a2 ->
  Forall (Forall (fun v => 0 <= v <= 18)) a1 ->
  Forall (Forall (fun v => 0 <= v <= 18)) a2 ->
  (relabel img h1).2 !! img = (relabel img h2).2 !! img ->
  a1 = a2.
Proof.
  intros Hl1 Hl2 Hb1 Hb2.
  rewrite (relabel_run img h1 a1 Hl1), (relabel_run img h2 a2 Hl2). cbn [snd].
  rewrite !lookup_insert_eq. intros [= Heq].
  eapply (map_cells_inj city_id train_id); [|exact Hb1|exact Hb2|exact Heq].
  intros v Hv. apply train_id_city_id. exact Hv.
Qed.

Lemma relabel_keeps_classes_apart_witness :
  ({[1%positive := [[0; 18]]]} : heap) !! 1%positive = Some [[0; 18]]
  /\ [[0; 18]] = [[0; 18]].
Proof.
  split; [apply lookup_singleton_eq|].
  apply (relabel_keeps_classes_apart 1 {[1%positive := [[0; 18]]]}
           {[1%positive := [[0; 18]]]} [[0; 18]] [[0; 18]]).
  - apply lookup_singleton_eq.
  - apply lookup_singleton_eq.
  - repeat (constructor; try lia).
  - repeat (constructor; try lia).
  - reflexivity.
Defined.

(** X4: [relabel] is not to be run twice on one array.  A second run
    leaves [city_id (city_id v)] in a cell that held [v]: the classes
    7..18 keep their identifier, the classes 0..6 and 19 get another one. *)
Theorem relabel_twice img (h : heap) arr :
  h !! img = Some arr ->
  (img' ← relabel img; relabel img') h
  = (img, <[img := map (map (fun v => city_id (city_id v))) arr]> h)
  /\ (forall v, 7 <= v <= 18 -> city_id (city_id v) = city_id v)
  /\ (forall v, 0 <= v <= 6 \/ v = 19 -> city_id (city_id v) <> city_id v).
Proof.
  intros Hl. split; [|split].
  - unfold mbind, St_bind. rewrite (relabel_run img h arr Hl).
    rewrite (relabel_run img _ (map (map city_id) arr)) by apply lookup_insert_eq.
    now rewrite insert_insert_eq, map_map2.
  - intros v Hv. assert (Hv' : 0 <= v <= 19) by lia.
    apply train_range_cases in Hv'. simpl in Hv'.
    repeat (destruct Hv' as [<-|Hv']; [reflexivity || lia|]). contradiction.
  - intros v Hv. assert (Hv' : 0 <= v <= 19) by lia.
    apply train_range_cases in Hv'. simpl in Hv'.
    repeat (destruct Hv' as [<-|Hv']; [cbn; lia|]). contradiction.
Qed.

Lemma relabel_twice_witness :
  ({[1%positive := [[0; 7]]]} : heap) !! 1%positive = Some [[0; 7]]
  /\ (img' ← relabel 1; relabel img') {[1%positive := [[0; 7]]]}
     = (1%positive,
        <[1%positive := map (map (fun v => city_id (city_id v))) [[0; 7]]]>
          {[1%positive := [[0; 7]]]}).
Proof.
  split; [apply lookup_singleton_eq|].
  apply (relabel_twice 1 {[1%positive := [[0; 7]]]} [[0; 7]]).
  apply lookup_singleton_eq.
Defined.

End RelabelMore.

(** ** More on the resize *)
Section ResizeMore.
Import Relabel Resize Postprocess.














End ResizeMore.

(** ** More on the output file name *)
Section EvaluateMore.
Import Evaluate.
Local Open Scope string_scope.

Lemma has_char_app c (x y : string) :
  PyStr.has_char c (x +:+ y) = PyStr.has_char c x || PyStr.has_char c y.
Proof.
  induction x as [|a x IH]; [reflexivity|].
  rewrite string_app_cons. cbn [PyStr.has_char]. now rewrite IH, orb_assoc.
Qed.

Lemma split_fields_no_sep c s :
  Forall (fun f => PyStr.has_char c f = false) (PyStr.split c s).
Proof.
  induction s as [|a s IH]; cbn [PyStr.split].
  - repeat constructor.
  - destruct (Ascii.eqb a c) eqn:Ha.
    + constructor; [reflexivity|exact IH].
    + destruct (PyStr.split c s) as [|f fs].
      * repeat constructor. cbn [PyStr.has_char]. now rewrite Ha.
      * apply Forall_cons in IH as [Hf Hfs]. constructor; [|exact Hfs].
        cbn [PyStr.has_char]. now rewrite Ha, Hf.
Qed.

Lemma last_field_no_sep c s :
  PyStr.has_char c (PyStr.last_field (PyStr.split c s)) = false.
Proof.
  unfold PyStr.last_field.
  pose proof (split_fields_no_sep c s) as Hall.
  induction Hall as [|f fs Hf Hfs IH]; [reflexivity|].
  destruct fs; [exact Hf|exact IH].
Qed.

Lemma replace_from_no_char c old new k s :
  PyStr.has_char c new = false -> PyStr.has_char c s = false ->
  PyStr.has_char c (PyStr.replace_from old new k s) = false.
Proof.
  intros Hnew. revert k. induction s as [|a s IH]; intros k Hs; [reflexivity|].
  cbn [PyStr.has_char] in Hs. apply orb_false_iff in Hs as [Ha Hs].
  cbn [PyStr.replace_from]. destruct k as [|k]; [|now apply IH].
  destruct (String.prefix old (String a s)).
  - rewrite has_char_app, Hnew. now apply IH.
  - cbn [PyStr.has_char]. rewrite Ha. now apply IH.
Qed.

Lemma intersperse_no_char c new s :
  PyStr.has_char c new = false -> PyStr.has_char c s = false ->
  PyStr.has_char c (PyStr.intersperse new s) = false.
Proof.
  intros Hnew. induction s as [|a s IH]; intros Hs; [exact Hnew|].
  cbn [PyStr.has_char] in Hs. apply orb_false_iff in Hs as [Ha Hs].
  cbn [PyStr.intersperse]. rewrite has_char_app, Hnew.
  cbn [PyStr.has_char]. rewrite Ha. now apply IH.
Qed.

(** X9: the mask is written directly under [savedir]: whatever the input
    path, the output path is [savedir], a slash and a file name that holds
    no slash. *)
Theorem output_name_flat savedir imgName :
  exists file, output_name savedir imgName = savedir +:+ "/" +:+ file
               /\ PyStr.has_char "/" file = false.
Proof.
  unfold output_name. cbv zeta. eexists. split; [reflexivity|].
  pose proof (last_field_no_sep "/" imgName) as Hname.
  unfold PyStr.replace.
  destruct (PyStr.last_field (PyStr.split "." imgName)).
  - now apply intersperse_no_char.
  - now apply replace_from_no_char.
Qed.

Lemma prefix_refl s : String.prefix s s = true.
Proof.
  induction s as [|a s IH]; [reflexivity|]. cbn [String.prefix].
  destruct (ascii_dec a a); [exact IH|contradiction].
Qed.

(** Up to the first occurrence of [old] nothing is replaced. *)
Lemma replace_from_before old new pre s :
  String.index 0 old (pre +:+ s) = Some (String.length pre) ->
  PyStr.replace_from old new 0 (pre +:+ s) = pre +:+ PyStr.replace_from old new 0 s.
Proof.
  induction pre as [|c pre IH]; [reflexivity|].
  rewrite !string_app_cons. cbn [String.index String.length PyStr.replace_from].
  destruct (String.prefix old (String c (pre +:+ s))); [discriminate|].
  destruct (String.index 0 old (pre +:+ s)) as [n|] eqn:Hi; [|discriminate].
  intros [= ->]. now rewrite IH.
Qed.

Lemma replace_from_whole a old new :
  PyStr.replace_from (String a old) new 0 (String a old) = new.
Proof.
  cbn [PyStr.replace_from]. rewrite prefix_refl.
  replace (String.length (String a old) - 1)%nat with (String.length old)
    by (cbn [String.length]; lia).
  pose proof (replace_from_skip (String a old) new old "") as Hskip.
  assert (Hnil : forall t : string, t +:+ "" = t).
  { induction t as [|b t IHt]; [reflexivity|]. now rewrite string_app_cons, IHt. }
  rewrite Hnil in Hskip. rewrite Hskip. cbn [PyStr.replace_from]. apply Hnil.
Qed.

(** X10: where the extension is swapped cleanly.  For a path
    [dir/stem.ext] whose extension is not empty and first occurs in the base
    name at the extension itself, the mask goes to [savedir/stem.png]. *)
Theorem output_name_swaps_extension savedir dir stem ext :
  PyStr.has_char "/" (stem +:+ "." +:+ ext) = false ->
  PyStr.has_char "." ext = false ->
  ext <> "" ->
  String.index 0 ext (stem +:+ "." +:+ ext) = Some (S (String.length stem)) ->
  output_name savedir (dir +:+ "/" +:+ stem +:+ "." +:+ ext)
  = savedir +:+ "/" +:+ stem +:+ ".png".
Proof.
  intros Hbase Hext Hne Hfirst.
  assert (Ename : PyStr.last_field (PyStr.split "/" (dir +:+ "/" +:+ stem +:+ "." +:+ ext))
                  = stem +:+ "." +:+ ext)
    by exact (last_field_split "/" dir (stem +:+ "." +:+ ext) Hbase).
  assert (Eextn : PyStr.last_field (PyStr.split "." (dir +:+ "/" +:+ stem +:+ "." +:+ ext))
                  = ext).
  { replace (dir +:+ "/" +:+ stem +:+ "." +:+ ext)
      with ((dir +:+ "/" +:+ stem) +:+ String "." ext)
      by (now rewrite !string_app_assoc).
    exact (last_field_split "." _ ext Hext). }
  unfold output_name. cbv zeta. rewrite Ename, Eextn.
  destruct ext as [|a ext]; [contradiction|]. unfold PyStr.replace.
  replace (stem +:+ "." +:+ String a ext) with ((stem +:+ ".") +:+ String a ext)
    in * by (now rewrite string_app_assoc).
  rewrite replace_from_before.
  - rewrite replace_from_whole. now rewrite !string_app_assoc.
  - rewrite Hfirst. f_equal. rewrite string_length_app. cbn [String.length]. lia.
Qed.

Lemma output_name_swaps_extension_witness :
  output_name "out" ("/data/VOC2012/JPEGImages" +:+ "/" +:+ "2007_000033" +:+ "." +:+ "jpg")
  = "out" +:+ "/" +:+ "2007_000033" +:+ ".png".
Proof.
  apply (output_name_swaps_extension "out" "/data/VOC2012/JPEGImages" "2007_000033" "jpg").
  - reflexivity.
  - reflexivity.
  - discriminate.
  - reflexivity.
Defined.

(** The last separator of a string that has one. *)
Lemma has_char_last c y :
  PyStr.has_char c y = true ->
  exists y1 y2, y = y1 +:+ String c y2 /\ PyStr.has_char c y2 = false.
Proof.
  induction y as [|a y IH]; [discriminate|]. cbn [PyStr.has_char].
  destruct (PyStr.has_char c y) eqn:Hy.
  - intros _. destruct (IH eq_refl) as (y1 & y2 & -> & H2).
    exists (String a y1), y2. split; [reflexivity|exact H2].
  - rewrite orb_false_r. intros ->%Ascii.eqb_eq.
    exists "", y. split; [reflexivity|exact Hy].
Qed.

(** X11: the output path depends on the base name only.  Two pictures
    with the same dotted base name in different directories are saved
    under one and the same path. *)
Theorem output_name_base_only savedir dir1 dir2 base :
  PyStr.has_char "/" base = false ->
  PyStr.has_char "." base = true ->
  output_name savedir (dir1 +:+ "/" +:+ base)
  = output_name savedir (dir2 +:+ "/" +:+ base).
Proof.
  intros Hslash Hdot.
  destruct (has_char_last "." base Hdot) as (b1 & ext & -> & Hext).
  assert (E : forall dir,
             output_name savedir (dir +:+ "/" +:+ b1 +:+ String "." ext)
             = savedir +:+ "/" +:+ PyStr.replace ext "png" (b1 +:+ String "." ext)).
  { intros dir.
    assert (Ename : PyStr.last_field
                      (PyStr.split "/" (dir +:+ "/" +:+ b1 +:+ String "." ext))
                    = b1 +:+ String "." ext)
      by exact (last_field_split "/" dir (b1 +:+ String "." ext) Hslash).
    assert (Eextn : PyStr.last_field
                      (PyStr.split "." (dir +:+ "/" +:+ b1 +:+ String "." ext))
                    = ext).
    { replace (dir +:+ "/" +:+ b1 +:+ String "." ext)
        with ((dir +:+ "/" +:+ b1) +:+ String "." ext)
        by (now rewrite !string_app_assoc).
      exact (last_field_split "." _ ext Hext). }
    unfold output_name. cbv zeta. now rewrite Ename, Eextn. }
  now rewrite !E.
Qed.

Lemma output_name_base_only_witness :
  output_name "out" ("/data/a" +:+ "/" +:+ "x_1.png")
  = output_name "out" ("/data/b" +:+ "/" +:+ "x_1.png").
Proof.
  apply (output_name_base_only "out" "/data/a" "/data/b" "x_1.png"); reflexivity.
Defined.

(** X12: [load_args] and [evaluate] together, for Cityscapes: the mask of
    [dir/stem.png] is saved as [results_city_<split>/results/stem.png]. *)
Theorem city_mask_path split dir stem :
  PyStr.has_char "/" (stem +:+ ".png") = false ->
  exists sd, LoadArgs.savedir "city" split = Some sd
    /\ output_name sd (dir +:+ "/" +:+ stem +:+ ".png")
       = "results_city_" +:+ split +:+ "/results/" +:+ stem +:+ ".png".
Proof.
  intros Hbase. eexists. split; [reflexivity|].
  rewrite (output_name_png _ dir stem Hbase).
  now rewrite !string_app_assoc.
Qed.

Lemma city_mask_path_witness :
  exists sd, LoadArgs.savedir "city" "val" = Some sd
    /\ output_name sd ("/data/leftImg8bit/val/ulm" +:+ "/" +:+ "ulm_1" +:+ ".png")
       = "results_city_" +:+ "val" +:+ "/results/" +:+ "ulm_1" +:+ ".png".
Proof.
  apply (city_mask_path "val" "/data/leftImg8bit/val/ulm" "ulm_1"). reflexivity.
Defined.

End EvaluateMore.

(** ** More on the dataset enumeration *)
Section DatasetMore.
Import Dataset.
Local Open Scope string_scope.

Lemma listed_present_length fs a lines :
  Forall (present fs a) lines ->
  length (omap (listed a) lines) = length lines.
Proof.
  induction 1 as [|line lines (f & Hf & _) _ IH]; [reflexivity|].
  cbn [omap list_omap]. unfold listed at 1. rewrite Hf.
  cbn [fmap option_fmap option_map length]. now rewrite IH.
Qed.

(** X13: the manifest variant when all is in place.  With the manifest
    readable, not empty, and every line naming an image that is on disk,
    [load_dataset] returns the locations of the first five listed images,
    in the order of the manifest, and prints their number. *)
Theorem load_dataset_pascal_lists fs a out lines :
  dataset a = "pascal" ->
  isfile fs (data_file a) = true ->
  readlines fs (data_file a) = Some lines ->
  lines <> [] ->
  Forall (present fs a) lines ->
  load_dataset fs a out
  = (Returned (firstn 5 (omap (listed a) lines)),
     (out ++ ["# of images for testing: "
              +:+ PyStr.of_nat (Nat.min 5 (length lines))])%list).
Proof.
  intros Hp Hm Hread Hne Hall.
  rewrite (load_dataset_pascal fs a out lines Hp Hm Hread).
  rewrite (read_manifest_present fs a lines [] out Hall). cbn [app].
  pose proof (listed_present_length fs a lines Hall) as Hlen.
  destruct (omap (listed a) lines) as [|p l] eqn:Hl.
  - destruct lines; [contradiction|discriminate].
  - rewrite length_take, Hlen. reflexivity.
Qed.

Lemma load_dataset_pascal_lists_witness :
  load_dataset
    (Filesystem (fun _ => []) (fun _ => true)
       (fun _ => Some ["JPEGImages/a.jpg"; "JPEGImages/b.jpg  1"]))
    Fixtures.pascal_args []
  = (Returned ["/data/VOC2012/JPEGImages/a.jpg"; "/data/VOC2012/JPEGImages/b.jpg"],
     ["# of images for testing: 2"]).
Proof.
  apply (load_dataset_pascal_lists
           (Filesystem (fun _ => []) (fun _ => true)
              (fun _ => Some ["JPEGImages/a.jpg"; "JPEGImages/b.jpg  1"]))
           Fixtures.pascal_args []
           ["JPEGImages/a.jpg"; "JPEGImages/b.jpg  1"]).
  - reflexivity.
  - reflexivity.
  - reflexivity.
  - discriminate.
  - constructor; [|constructor; [|constructor]].
    + exists "JPEGImages/a.jpg". split; reflexivity.
    + exists "JPEGImages/b.jpg". split; reflexivity.
Defined.

Lemma first_field_blank line :
  (forall c, In c (list_ascii_of_string line) -> PyStr.isspace c = true) ->
  PyStr.first_field line = None.
Proof.
  induction line as [|c line IH]; intros Hall; [reflexivity|].
  cbn [PyStr.first_field]. rewrite (Hall c) by (left; reflexivity).
  apply IH. intros c' Hc'. apply Hall. right. exact Hc'.
Qed.

Lemma read_manifest_blank fs a pre line post acc out :
  Forall (present fs a) pre ->
  PyStr.first_field line = None ->
  read_manifest fs a (pre ++ line :: post) acc out = (Raised IndexError, out).
Proof.
  intros Hpre Hf. revert acc.
  induction Hpre as [|l pre (g & Hg & Hon) _ IH]; intros acc;
    cbn [app read_manifest]; unfold mbind, Run_bind.
  - rewrite Hf. reflexivity.
  - rewrite Hg. cbn [mret Run_ret]. rewrite Hon. cbn [negb mret Run_ret].
    apply IH.
Qed.

(** X14: a blank line in the manifest.  If the lines before it name
    images that are on disk and the line itself holds nothing but blanks,
    [line.split()[0]] fails: the run ends in IndexError and prints
    nothing. *)
Theorem load_dataset_blank_line fs a out pre line post :
  dataset a = "pascal" ->
  isfile fs (data_file a) = true ->
  readlines fs (data_file a) = Some (pre ++ line :: post)%list ->
  Forall (present fs a) pre ->
  (forall c, In c (list_ascii_of_string line) -> PyStr.isspace c = true) ->
  load_dataset fs a out = (Raised IndexError, out).
Proof.
  intros Hp Hm Hread Hpre Hblank.
  rewrite (load_dataset_pascal fs a out _ Hp Hm Hread).
  now rewrite (read_manifest_blank fs a pre line post [] out Hpre
                 (first_field_blank line Hblank)).
Qed.

Lemma load_dataset_blank_line_witness :
  load_dataset
    (Filesystem (fun _ => []) (fun _ => true)
       (fun _ => Some ["JPEGImages/a.jpg"; String "010" ""; "JPEGImages/b.jpg"]))
    Fixtures.pascal_args []
  = (Raised IndexError, []).
Proof.
  apply (load_dataset_blank_line
           (Filesystem (fun _ => []) (fun _ => true)
              (fun _ => Some ["JPEGImages/a.jpg"; String "010" ""; "JPEGImages/b.jpg"]))
           Fixtures.pascal_args []
           ["JPEGImages/a.jpg"] (String "010" "") ["JPEGImages/b.jpg"]).
  - reflexivity.
  - reflexivity.
  - reflexivity.
  - constructor; [|constructor]. exists "JPEGImages/a.jpg". split; reflexivity.
  - intros c [<-|[]]. reflexivity.
Defined.

Lemma read_manifest_files fs a lines acc out l out' :
  read_manifest fs a lines acc out = (Returned l, out') ->
  Forall (fun p => isfile fs p = true) acc ->
  Forall (fun p => isfile fs p = true) l.
Proof.
  revert acc. induction lines as [|line lines IH]; intros acc; cbn [read_manifest].
  - intros [= <- _] Hacc. exact Hacc.
  - unfold mbind, Run_bind.
    destruct (PyStr.first_field line) as [f|]; [|discriminate].
    cbn [mret Run_ret].
    destruct (isfile fs (rgb_img_loc a f)) eqn:Hon; cbn [negb].
    + cbn [mret Run_ret]. intros Hrun Hacc. apply (IH _ Hrun).
      apply Forall_app. split; [exact Hacc|]. repeat constructor. exact Hon.
    + rewrite print_error_message_run. discriminate.
Qed.

(** X15: what a returned list is like.  Whenever [load_dataset] returns,
    the list holds between one and five paths, exactly one line was
    printed, the number of paths, and in the manifest variant every
    returned path is a file on disk. *)
Theorem load_dataset_returned fs a out l out' :
  load_dataset fs a out = (Returned l, out') ->
  (1 <= length l <= 5)%nat
  /\ out' = (out ++ ["# of images for testing: " +:+ PyStr.of_nat (length l)])%list
  /\ (dataset a = "pascal" -> Forall (fun p => isfile fs p = true) l).
Proof.
  intros Hrun.
  destruct (String.eqb (dataset a) "city") eqn:Hc.
  { apply String.eqb_eq in Hc. rewrite (load_dataset_city fs a out Hc) in Hrun.
    destruct (glob fs (city_pattern a)) as [|p g]; [discriminate|].
    assert (l = firstn 5 (p :: g)) as -> by congruence.
    assert (out' = (out ++ ["# of images for testing: "
                            +:+ PyStr.of_nat (length (firstn 5 (p :: g)))])%list)
      as -> by congruence.
    split; [|split].
    - rewrite length_take. cbn [length]. lia.
    - reflexivity.
    - rewrite Hc. discriminate. }
  destruct (String.eqb (dataset a) "pascal") eqn:Hp.
  2:{ rewrite (load_dataset_unsupported fs a out Hc Hp) in Hrun. discriminate. }
  apply String.eqb_eq in Hp.
  destruct (isfile fs (data_file a)) eqn:Hm.
  2:{ rewrite (load_dataset_no_manifest fs a out Hp Hm) in Hrun. discriminate. }
  destruct (readlines fs (data_file a)) as [lines|] eqn:Hread.
  - rewrite (load_dataset_pascal fs a out lines Hp Hm Hread) in Hrun.
    destruct (read_manifest fs a lines [] out) as [[il|e] o] eqn:Hloop;
      [|discriminate].
    pose proof (read_manifest_files _ _ _ _ _ _ _ Hloop (List.Forall_nil _)) as Hfiles.
    apply read_manifest_returned in Hloop as [_ ->].
    destruct il as [|p il]; [discriminate|].
    assert (l = firstn 5 (p :: il)) as -> by congruence.
    assert (out' = (out ++ ["# of images for testing: "
                            +:+ PyStr.of_nat (length (firstn 5 (p :: il)))])%list)
      as -> by congruence.
    split; [|split].
    + rewrite length_take. cbn [length]. lia.
    + reflexivity.
    + intros _. apply Forall_take. exact Hfiles.
  - unfold load_dataset in Hrun. rewrite Hp in Hrun.
    change (String.eqb "pascal" "city") with false in Hrun.
    change (String.eqb "pascal" "pascal") with true in Hrun. cbv iota in Hrun.
    rewrite Hm in Hrun. unfold open_lines in Hrun. rewrite Hread in Hrun.
    discriminate.
Qed.

Lemma load_dataset_returned_witness :
  (1 <= length [Fixtures.bochum; Fixtures.aachen] <= 5)%nat
  /\ ["# of images for testing: 2"]
     = ([] ++ ["# of images for testing: "
               +:+ PyStr.of_nat (length [Fixtures.bochum; Fixtures.aachen])])%list.
Proof.
  destruct (load_dataset_returned Fixtures.fs_bochum_first Fixtures.city_args []
              [Fixtures.bochum; Fixtures.aachen] ["# of images for testing: 2"]
              eq_refl) as (Hlen & Hout & _).
  split; [exact Hlen|exact Hout].
Defined.

End DatasetMore.

(** ** More on freezing *)
Section FreezeMore.
Import Freeze.

(** X16: of two [_freeze] calls on one module the last one decides: the
    store after [_freeze m f2] does not depend on an earlier [_freeze m f1].
    So freezing is idempotent, and unfreezing undoes a freeze. *)
Theorem freeze_last_wins m f1 f2 (s : gmap param bool) :
  _freeze m f2 (_freeze m f1 s) = _freeze m f2 s.
Proof.
  apply map_eq. intros p. rewrite !lookup_freeze.
  destruct (decide (p ∈ descendant_params m)); reflexivity.
Qed.

Lemma filter_all (g : param -> bool) l :
  Forall (fun p => g p = true) l -> List.filter g l = l.
Proof.
  induction 1 as [|p l Hp _ IH]; [reflexivity|].
  cbn [List.filter]. now rewrite Hp, IH.
Qed.

Lemma filter_none (g : param -> bool) l :
  Forall (fun p => g p = false) l -> List.filter g l = [].
Proof.
  induction 1 as [|p l Hp _ IH]; [reflexivity|].
  cbn [List.filter]. now rewrite Hp, IH.
Qed.

Lemma requires_grad_frozen m freeze (s : gmap param bool) :
  Forall (fun p => requires_grad (_freeze m freeze s) p = negb freeze) (visited m).
Proof.
  apply Forall_forall. intros p Hp. apply visited_descendant in Hp.
  unfold requires_grad. rewrite lookup_freeze, decide_True by exact Hp.
  reflexivity.
Qed.

(** X17: counting after freezing.  Once [_freeze m True] has run,
    [_count_freeze m] reports no unfrozen parameter, and after
    [_freeze m False] no frozen one; the other count is the number of
    parameters its loops visit. *)
Theorem count_after_freeze m (s : gmap param bool) :
  _count_freeze m (_freeze m true s) = (0, length (visited m))%nat
  /\ _count_freeze m (_freeze m false s) = (length (visited m), 0)%nat.
Proof.
  split; rewrite count_freeze_visited, count_params_filter.
  - pose proof (requires_grad_frozen m true s) as Hall. cbn [negb] in Hall.
    rewrite (filter_none _ _ Hall), filter_all; [reflexivity|].
    eapply Forall_impl; [exact Hall|]. intros p ->. reflexivity.
  - pose proof (requires_grad_frozen m false s) as Hall. cbn [negb] in Hall.
    rewrite (filter_all _ _ Hall), filter_none; [reflexivity|].
    eapply Forall_impl; [exact Hall|]. intros p ->. reflexivity.
Qed.

(** X18: unfreezing after freezing.  On a model with a [base_net],
    [freeze_base] followed by [unfreeze_base] leaves the flag [True] on
    the parameters of the modules below [base_net] and every other entry
    as it was; a store in which those flags were [True] is restored. *)
Theorem unfreeze_after_freeze model base_net (s : gmap param bool) :
  getattr model "base_net" = Some base_net ->
  exists s1 line1 s2 line2,
    freeze_base model s = Some (s1, line1)
    /\ unfreeze_base model s1 = Some (s2, line2)
    /\ (forall p, s2 !! p = if decide (p ∈ descendant_params base_net)
                           then Some true else s !! p)
    /\ ((forall p, p ∈ descendant_params base_net -> s !! p = Some true) -> s2 = s).
Proof.
  intros Hget. unfold freeze_base, unfreeze_base. rewrite Hget. cbn.
  eexists _, _, _, _. split; [reflexivity|]. split; [reflexivity|].
  assert (Hlook : forall p, _freeze base_net false (_freeze base_net true s) !! p
                            = if decide (p ∈ descendant_params base_net)
                              then Some true else s !! p).
  { intros p. rewrite !lookup_freeze.
    destruct (decide (p ∈ descendant_params base_net)); reflexivity. }
  split; [exact Hlook|].
  intros Htrue. apply map_eq. intros p. rewrite Hlook.
  destruct (decide (p ∈ descendant_params base_net)) as [Hin|_]; [|reflexivity].
  symmetry. apply Htrue. exact Hin.
Qed.

Lemma unfreeze_after_freeze_witness :
  exists s1 line1 s2 line2,
    freeze_base (NNModule [] [("base_net"%string, tied)]) {[1%positive := true]}
    = Some (s1, line1)
    /\ unfreeze_base (NNModule [] [("base_net"%string, tied)]) s1 = Some (s2, line2)
    /\ (forall p, s2 !! p = if decide (p ∈ descendant_params tied)
                           then Some true
                           else ({[1%positive := true]} : gmap param bool) !! p)
    /\ ((forall p, p ∈ descendant_params tied ->
                   ({[1%positive := true]} : gmap param bool) !! p = Some true) ->
        s2 = {[1%positive := true]}).
Proof.
  apply (unfreeze_after_freeze (NNModule [] [("base_net"%string, tied)]) tied
           {[1%positive := true]}).
  reflexivity.
Defined.

(** X19: the two counts of [_count_freeze] always add up to the same
    number, whatever the flags are: freezing or unfreezing moves
    parameters from one count to the other and changes no total. *)
Theorem count_total_invariant m (s s' : gmap param bool) :
  ((_count_freeze m s).1 + (_count_freeze m s).2
   = (_count_freeze m s').1 + (_count_freeze m s').2)%nat.
Proof.
  assert (Hsum : forall t : gmap param bool,
             ((_count_freeze m t).1 + (_count_freeze m t).2 = length (visited m))%nat).
  { intros t. rewrite count_freeze_visited, count_params_filter. cbn [fst snd].
    generalize (visited m). intros l.
    induction l as [|p l IH]; [reflexivity|].
    cbn [List.filter length]. destruct (requires_grad t p); cbn [negb length]; lia. }
  now rewrite !Hsum.
Qed.


End FreezeMore.
